(** * ferrum / galvorn: [Option], [Result] and [match] for TypeScript

    A shallow embedding of [src/option.ts], [src/result.ts] and
    [src/match.ts].

    - The two abstract classes with their two private subclasses become
      two-constructor inductive types; a method becomes a function whose
      first argument is the receiver and whose [match] has one branch per
      subclass, each branch being the body of that subclass's method.
    - Generic parameters [T], [U], [E], [F] are Rocq type parameters.
    - [throw] is an abrupt [completion] carrying the thrown JavaScript
      value.  Methods that receive a callback run in the monad [Js W] of
      state-passing computations over an arbitrary world [W], since a
      callback may throw and may have side effects.
    - Where the code depends on the run-time nature of a value
      ([value != null], [e instanceof Error], [String(e)], a template
      literal) the value is a [Js.value], the universe of ECMAScript
      language values. *)

From Stdlib Require Import String Ascii List ZArith Bool Lia.
From Stdlib Require Import PrimFloat FloatOps SpecFloat DecimalString.
Import ListNotations.

Local Open Scope string_scope.

(* ===================================================================== *)
(** * The JavaScript run time                                            *)
(* ===================================================================== *)

Module Js.

(** An [Error] instance, reduced to the two own properties the library
    and its callers read.  Subclasses ([TypeError], ...) differ by [name]. *)
Record Error : Type := mkError { name : string; message : string }.

(** [new Error(msg)] *)
Definition new_Error (msg : string) : Error :=
  {| name := "Error"; message := msg |}.

(** ECMAScript language values.  An object that is not an [Error] instance
    is abstracted by what its conversion to a string does
    ([ToPrimitive] with hint string, then [ToString]): it yields a string,
    or it throws (for instance [Object.create(null)], or an object whose
    [toString] throws).  The conversion of an object is taken to be
    deterministic and to leave the world as it is. *)
Inductive value : Type :=
| VUndefined
| VNull
| VBoolean (b : bool)
| VNumber (n : float)
| VBigInt (z : Z)
| VString (s : string)
| VSymbol (description : option string)
| VError (e : Error)
| VObject (conversion : stringification)
with stringification : Type :=
| Yields (s : string)
| Raises (thrown : value).

(** The outcome of evaluating an expression: a value, or a [throw]. *)
Inductive completion (A : Type) : Type :=
| Normal (a : A)
| Abrupt (thrown : value).
Arguments Normal {A} a.
Arguments Abrupt {A} thrown.

Definition is_normal {A} (c : completion A) : bool :=
  match c with Normal _ => true | Abrupt _ => false end.

(** [throw new Error(msg)] *)
Definition throw_Error {A} (msg : string) : completion A :=
  Abrupt (VError (new_Error msg)).

(** The engine's [Number::toString], which the library never looks into. *)
Class Engine : Type := NumberToString : float -> string.

(** The [TypeError] of [ToString] applied to a Symbol. *)
Definition symbol_TypeError : Error :=
  {| name := "TypeError"; message := "Cannot convert a Symbol value to a string" |}.

(** [Error.prototype.toString] *)
Definition Error_toString (e : Error) : string :=
  if String.eqb (name e) "" then message e
  else if String.eqb (message e) "" then name e
  else name e ++ ": " ++ message e.

Definition BigInt_toString (z : Z) : string :=
  NilZero.string_of_int (Z.to_int z).

(** The abstract operation [ToString], used by template literals. *)
Definition ToString {engine : Engine} (v : value) : completion string :=
  match v with
  | VUndefined => Normal "undefined"
  | VNull => Normal "null"
  | VBoolean true => Normal "true"
  | VBoolean false => Normal "false"
  | VNumber n => Normal (NumberToString n)
  | VBigInt z => Normal (BigInt_toString z)
  | VString s => Normal s
  | VSymbol _ => Abrupt (VError symbol_TypeError)
  | VError e => Normal (Error_toString e)
  | VObject (Yields s) => Normal s
  | VObject (Raises t) => Abrupt t
  end.

(** [SymbolDescriptiveString] *)
Definition SymbolDescriptiveString (description : option string) : string :=
  "Symbol(" ++ match description with Some d => d | None => "" end ++ ")".

(** The function [String(v)]: [ToString], except that a Symbol is
    described instead of rejected. *)
Definition String_ {engine : Engine} (v : value) : completion string :=
  match v with
  | VSymbol d => Normal (SymbolDescriptiveString d)
  | _ => ToString v
  end.

(** [v instanceof Error] *)
Definition instanceof_Error (v : value) : bool :=
  match v with VError _ => true | _ => false end.

(** [v == null] (IsLooselyEqual against [null]): true for [null] and
    [undefined] only.  Host objects with an [[IsHTMLDDA]] slot
    ([document.all]) are not language values of this universe. *)
Definition loosely_equals_null (v : value) : bool :=
  match v with VUndefined | VNull => true | _ => false end.

(** How a value of a TypeScript type looks at run time. *)
Class Repr (A : Type) : Type := repr : A -> value.

#[global] Instance Repr_value : Repr value := fun v => v.
#[global] Instance Repr_string : Repr string := VString.
#[global] Instance Repr_boolean : Repr bool := VBoolean.
#[global] Instance Repr_number : Repr float := VNumber.
#[global] Instance Repr_bigint : Repr Z := VBigInt.
#[global] Instance Repr_Error : Repr Error := VError.

(** A template literal with one substitution: [`${prefix}${x}${suffix}`]. *)
Definition template {engine : Engine} {A} `{Repr A} (prefix : string) (x : A) (suffix : string)
  : completion string :=
  match ToString (repr x) with
  | Normal s => Normal (prefix ++ s ++ suffix)
  | Abrupt t => Abrupt t
  end.

(** ** Computations *)

(** A computation over the world [W]: it may change the world and
    completes normally or abruptly. *)
Definition Js (W A : Type) : Type := W -> completion A * W.

Definition ret {W A} (a : A) : Js W A := fun w => (Normal a, w).

Definition bind {W A B} (m : Js W A) (k : A -> Js W B) : Js W B :=
  fun w =>
    match m w with
    | (Normal a, w') => k a w'
    | (Abrupt t, w') => (Abrupt t, w')
    end.

(** An expression without side effects, evaluated inside a computation. *)
Definition lift {W A} (c : completion A) : Js W A := fun w => (c, w).

(** [try { body } catch (e) { handler(e) }] *)
Definition try_catch {W A} (body : Js W A) (handler : value -> Js W A) : Js W A :=
  fun w =>
    match body w with
    | (Normal a, w') => (Normal a, w')
    | (Abrupt e, w') => handler e w'
    end.

End Js.

Import Js.

Declare Scope js_scope.
Delimit Scope js_scope with js.
Notation "x <- m ;; k" := (bind m (fun x => k))
  (at level 61, m at next level, right associativity) : js_scope.
Notation "m ;; k" := (bind m (fun _ => k))
  (at level 61, right associativity) : js_scope.
Local Open Scope js_scope.

(* ===================================================================== *)
(** * src/option.ts                                                      *)
(* ===================================================================== *)

Module OptionTs.

(** [abstract class Option<T>] with its two subclasses, which the module
    does not export: [class SomeOption<T>] (one private field [value]) and
    [class NoneOption<T>] (no field). *)
Inductive Option (T : Type) : Type :=
| SomeOption (value : T)
| NoneOption.
Arguments SomeOption {T} value.
Arguments NoneOption {T}.

(** [export function Some<T>(value: T)] and [export function None<T>()] *)
Definition Some {T} (value : T) : Option T := SomeOption value.
Definition None {T} : Option T := NoneOption.

(** The handler object [{ Some: (value: T) => U; None: () => U }]. *)
Record Patterns (W T U : Type) : Type := mkPatterns {
  SomeArm : T -> Js W U;
  NoneArm : unit -> Js W U
}.
Arguments mkPatterns {W T U} SomeArm NoneArm.
Arguments SomeArm {W T U} p.
Arguments NoneArm {W T U} p.

Section Methods.
Context {W : Type}.

Definition isSome {T} (self : Option T) : bool :=
  match self with SomeOption _ => true | NoneOption => false end.

Definition isNone {T} (self : Option T) : bool :=
  match self with SomeOption _ => false | NoneOption => true end.

Definition unwrap {T} (self : Option T) : completion T :=
  match self with
  | SomeOption value => Normal value
  | NoneOption => throw_Error "Called unwrap on a None value"
  end.

Definition expect {T} (self : Option T) (msg : string) : completion T :=
  match self with
  | SomeOption value => Normal value
  | NoneOption => throw_Error msg
  end.

Definition unwrapOr {T} (self : Option T) (defaultValue : T) : T :=
  match self with
  | SomeOption value => value
  | NoneOption => defaultValue
  end.

Definition unwrapOrElse {T} (self : Option T) (f : unit -> Js W T) : Js W T :=
  match self with
  | SomeOption value => ret value
  | NoneOption => f tt
  end.

Definition map {T U} (self : Option T) (f : T -> Js W U) : Js W (Option U) :=
  match self with
  | SomeOption value => u <- f value ;; ret (Some u)
  | NoneOption => ret None
  end.

Definition flatMap {T U} (self : Option T) (f : T -> Js W (Option U)) : Js W (Option U) :=
  match self with
  | SomeOption value => f value
  | NoneOption => ret None
  end.

Definition filter {T} (self : Option T) (predicate : T -> Js W bool) : Js W (Option T) :=
  match self with
  | SomeOption value => b <- predicate value ;; ret (if b then self else None)
  | NoneOption => ret self
  end.

Definition and {T U} (self : Option T) (optb : Option U) : Option U :=
  match self with
  | SomeOption _ => optb
  | NoneOption => None
  end.

Definition or {T} (self : Option T) (optb : Option T) : Option T :=
  match self with
  | SomeOption _ => self
  | NoneOption => optb
  end.

Definition orElse {T} (self : Option T) (f : unit -> Js W (Option T)) : Js W (Option T) :=
  match self with
  | SomeOption _ => ret self
  | NoneOption => f tt
  end.

Definition xor {T} (self : Option T) (optb : Option T) : Option T :=
  match self with
  | SomeOption _ => if isNone optb then self else None
  | NoneOption => if isSome optb then optb else None
  end.

Definition zip {T U} (self : Option T) (other : Option U) : completion (Option (T * U)) :=
  match self with
  | SomeOption value =>
      if isSome other
      then match unwrap other with
           | Normal u => Normal (Some (value, u))
           | Abrupt t => Abrupt t
           end
      else Normal None
  | NoneOption => Normal None
  end.

Definition inspect {T} (self : Option T) (f : T -> Js W unit) : Js W (Option T) :=
  match self with
  | SomeOption value => f value ;; ret self
  | NoneOption => ret self
  end.

Definition match_ {T U} (self : Option T) (patterns : Patterns W T U) : Js W U :=
  match self with
  | SomeOption value => SomeArm patterns value
  | NoneOption => NoneArm patterns tt
  end.

(** [T | undefined] and [T | null]: the payload as a run-time value, or
    the sentinel. *)
Definition toUndefined {T} `{Repr T} (self : Option T) : value :=
  match self with
  | SomeOption value => repr value
  | NoneOption => VUndefined
  end.

Definition toNull {T} `{Repr T} (self : Option T) : value :=
  match self with
  | SomeOption value => repr value
  | NoneOption => VNull
  end.

Definition toString {engine : Engine} {T} `{Repr T} (self : Option T) : completion string :=
  match self with
  | SomeOption value => template "Some(" value ")"
  | NoneOption => Normal "None"
  end.

(** [static fromNullable<T>(value: T | null | undefined)]:
    [value != null ? Some(value) : None<T>()] *)
Definition fromNullable (value : value) : Option Js.value :=
  if negb (loosely_equals_null value) then Some value else None.

End Methods.

End OptionTs.

(* ===================================================================== *)
(** * src/result.ts                                                      *)
(* ===================================================================== *)

Module ResultTs.

(** [abstract class Result<T, E>] with its two subclasses, which the
    module does not export: [class OkResult<T, E>] (one private field
    [value]) and [class ErrResult<T, E>] (one private field [error]). *)
Inductive Result (T E : Type) : Type :=
| OkResult (value : T)
| ErrResult (error : E).
Arguments OkResult {T E} value.
Arguments ErrResult {T E} error.

(** [export function Ok<T, E>(value: T)] and
    [export function Fail<T, E>(error: E)] *)
Definition Ok {T E} (value : T) : Result T E := OkResult value.
Definition Fail {T E} (error : E) : Result T E := ErrResult error.

(** The handler object [{ Ok: (value: T) => U; Err: (error: E) => U }]. *)
Record Patterns (W T E U : Type) : Type := mkPatterns {
  OkArm : T -> Js W U;
  ErrArm : E -> Js W U
}.
Arguments mkPatterns {W T E U} OkArm ErrArm.
Arguments OkArm {W T E U} p.
Arguments ErrArm {W T E U} p.

Section Methods.
Context {W : Type} {engine : Engine}.

Definition isOk {T E} (self : Result T E) : bool :=
  match self with OkResult _ => true | ErrResult _ => false end.

Definition isErr {T E} (self : Result T E) : bool :=
  match self with OkResult _ => false | ErrResult _ => true end.

Definition unwrap {T E} `{Repr E} (self : Result T E) : completion T :=
  match self with
  | OkResult value => Normal value
  | ErrResult error =>
      match template "Called unwrap on an Err value: " error "" with
      | Normal msg => throw_Error msg
      | Abrupt t => Abrupt t
      end
  end.

Definition unwrapErr {T E} (self : Result T E) : completion E :=
  match self with
  | OkResult _ => throw_Error "Called unwrapErr on an Ok value"
  | ErrResult error => Normal error
  end.

Definition expect {T E} (self : Result T E) (msg : string) : completion T :=
  match self with
  | OkResult value => Normal value
  | ErrResult _ => throw_Error msg
  end.

Definition expectErr {T E} (self : Result T E) (msg : string) : completion E :=
  match self with
  | OkResult _ => throw_Error msg
  | ErrResult error => Normal error
  end.

Definition unwrapOr {T E} (self : Result T E) (defaultValue : T) : T :=
  match self with
  | OkResult value => value
  | ErrResult _ => defaultValue
  end.

Definition unwrapOrElse {T E} (self : Result T E) (f : E -> Js W T) : Js W T :=
  match self with
  | OkResult value => ret value
  | ErrResult error => f error
  end.

Definition map {T E U} (self : Result T E) (f : T -> Js W U) : Js W (Result U E) :=
  match self with
  | OkResult value => u <- f value ;; ret (Ok u)
  | ErrResult error => ret (Fail error)
  end.

Definition mapErr {T E F} (self : Result T E) (f : E -> Js W F) : Js W (Result T F) :=
  match self with
  | OkResult value => ret (Ok value)
  | ErrResult error => e <- f error ;; ret (Fail e)
  end.

Definition mapOr {T E U} (self : Result T E) (defaultValue : U) (f : T -> Js W U) : Js W U :=
  match self with
  | OkResult value => f value
  | ErrResult _ => ret defaultValue
  end.

Definition mapOrElse {T E U} (self : Result T E) (defaultFn : E -> Js W U) (f : T -> Js W U)
  : Js W U :=
  match self with
  | OkResult value => f value
  | ErrResult error => defaultFn error
  end.

Definition flatMap {T E U} (self : Result T E) (f : T -> Js W (Result U E))
  : Js W (Result U E) :=
  match self with
  | OkResult value => f value
  | ErrResult error => ret (Fail error)
  end.

Definition and {T E U} (self : Result T E) (res : Result U E) : Result U E :=
  match self with
  | OkResult _ => res
  | ErrResult error => Fail error
  end.

Definition or {T E F} (self : Result T E) (res : Result T F) : Result T F :=
  match self with
  | OkResult value => Ok value
  | ErrResult _ => res
  end.

Definition orElse {T E F} (self : Result T E) (f : E -> Js W (Result T F))
  : Js W (Result T F) :=
  match self with
  | OkResult value => ret (Ok value)
  | ErrResult error => f error
  end.

Definition inspect {T E} (self : Result T E) (f : T -> Js W unit) : Js W (Result T E) :=
  match self with
  | OkResult value => f value ;; ret self
  | ErrResult _ => ret self
  end.

Definition inspectErr {T E} (self : Result T E) (f : E -> Js W unit) : Js W (Result T E) :=
  match self with
  | OkResult _ => ret self
  | ErrResult error => f error ;; ret self
  end.

Definition match_ {T E U} (self : Result T E) (patterns : Patterns W T E U) : Js W U :=
  match self with
  | OkResult value => OkArm patterns value
  | ErrResult error => ErrArm patterns error
  end.

Definition toString {T E} `{Repr T} `{Repr E} (self : Result T E) : completion string :=
  match self with
  | OkResult value => template "Ok(" value ")"
  | ErrResult error => template "Err(" error ")"
  end.

(** [static fromThrowable<T>(f: () => T): Result<T, Error>]
<<
    try { return Ok(f()); }
    catch (e) { return Fail(e instanceof Error ? e : new Error(String(e))); }
>>
    In the handler the argument of [Fail] is evaluated first; [String(e)]
    may itself complete abruptly, and nothing catches that. *)
Definition normalize_fault (e : value) : completion Error :=
  match e with
  | VError err => Normal err
  | _ => match String_ e with
         | Normal s => Normal (new_Error s)
         | Abrupt t => Abrupt t
         end
  end.

Definition fromThrowable {T} (f : unit -> Js W T) : Js W (Result T Error) :=
  try_catch
    (v <- f tt ;; ret (Ok v))
    (fun e => err <- lift (normalize_fault e) ;; ret (Fail err)).

(** [static combine<E>(results: Result<unknown, E>[]): Result<unknown[], E>]
<<
    const values: unknown[] = [];
    for (const result of results) {
      if (result.isErr()) return Fail(result.unwrapErr());
      values.push(result.unwrap());
    }
    return Ok(values);
>>
    [combine_loop] is the [for] loop over the elements still to visit,
    with [values] the array built so far. *)
Fixpoint combine_loop {T E} `{Repr E} (results : list (Result T E)) (values : list T)
  : completion (Result (list T) E) :=
  match results with
  | [] => Normal (Ok values)
  | result :: rest =>
      if isErr result
      then match unwrapErr result with
           | Normal error => Normal (Fail error)
           | Abrupt t => Abrupt t
           end
      else match unwrap result with
           | Normal value => combine_loop rest (values ++ [value])%list
           | Abrupt t => Abrupt t
           end
  end.

Definition combine {T E} `{Repr E} (results : list (Result T E))
  : completion (Result (list T) E) :=
  combine_loop results [].

End Methods.

End ResultTs.

(* ===================================================================== *)
(** * src/match.ts                                                       *)
(* ===================================================================== *)

Module MatchTs.

(** [value.match(patterns)]: the call is resolved by the class of the
    receiver.  [Matchable C P] says that containers of type [C] have a
    [match] method taking handlers of type [P]; the two instances are the
    two overload signatures of the free function. *)
Class Matchable (W : Type) (C P U : Type) : Type :=
  match_method : C -> P -> Js W U.

#[global] Instance Matchable_Option {W T U}
  : Matchable W (OptionTs.Option T) (OptionTs.Patterns W T U) U :=
  OptionTs.match_.

#[global] Instance Matchable_Result {W T E U}
  : Matchable W (ResultTs.Result T E) (ResultTs.Patterns W T E U) U :=
  ResultTs.match_.

(** [export function match(value, patterns) { return value.match(patterns as never); }] *)
Definition match_ {W C P U} `{Matchable W C P U} (value : C) (patterns : P) : Js W U :=
  match_method value patterns.

End MatchTs.

(* ===================================================================== *)
(** * Running the definitions                                            *)
(* ===================================================================== *)

(** An engine to evaluate examples with: it prints a double as its exact
    decimal expansion, which is what [Number::toString] prints for the
    integers below 10^21 and for fractions such as [0.5] or [-1.25].  No
    theorem depends on it: they hold for every engine. *)
Module ExactDecimal.

Definition decimal (z : Z) : string := NilZero.string_of_int (Z.to_int z).

Fixpoint zeros (k : nat) : string :=
  match k with O => "" | S k' => String "0"%char (zeros k') end.

(** Drops the zeros at the end of a digit string. *)
Fixpoint strip (s : string) : string :=
  match s with
  | EmptyString => ""
  | String c rest =>
      match strip rest with
      | EmptyString => if Ascii.eqb c "0"%char then "" else String c ""
      | r => String c r
      end
  end.

Definition fraction (r : Z) (k : nat) : string :=
  let d := decimal r in strip (zeros (k - String.length d) ++ d).

Definition print (n : float) : string :=
  match Prim2SF n with
  | S754_nan => "NaN"
  | S754_infinity false => "Infinity"
  | S754_infinity true => "-Infinity"
  | S754_zero _ => "0"
  | S754_finite s m e =>
      let sign := if s then "-" else "" in
      if (0 <=? e)%Z then sign ++ decimal (Z.pos m * 2 ^ e)
      else
        let N := (Z.pos m * 5 ^ (- e))%Z in
        let p := (10 ^ (- e))%Z in
        match fraction (N mod p) (Z.to_nat (- e)) with
        | EmptyString => sign ++ decimal (N / p)
        | f => sign ++ decimal (N / p) ++ "." ++ f
        end
  end.

Definition engine : Engine := print.

End ExactDecimal.

(** [Object.create(null)]: an object without [toString] and [valueOf],
    whose conversion to a string throws a [TypeError]. *)
Definition null_prototype_object : value :=
  VObject (Raises (VError
    {| name := "TypeError"; message := "Cannot convert object to primitive value" |})).

(** [() => { throw v; }] *)
Definition thrower {W A} (v : value) : unit -> Js W A :=
  fun _ => lift (Abrupt v).

(** A callback instrumented with a counter of its invocations: the world
    is paired with the number of calls made so far. *)
Definition counted {W A B} (f : A -> Js W B) : A -> Js (nat * W) B :=
  fun a '(calls, w) =>
    let (r, w') := f a w in (r, (S calls, w')).

(** The number of invocations recorded in an outcome over a counted world. *)
Definition calls_after {W A} (outcome : completion A * (nat * W)) : nat :=
  fst (snd outcome).


(* ===================================================================== *)
(** * Properties                                                         *)
(* ===================================================================== *)

(** Case analysis on what the callback [f] does where the goal runs it. *)
Ltac run_callback f :=
  match goal with
  | |- context [f ?a ?w] => destruct (f a w) as [[? | ?] ?]
  end.

Lemma append_empty_r (s : string) : s ++ "" = s.
Proof. induction s as [|c s IH]; simpl; [reflexivity | now rewrite IH]. Qed.

(** ** Option *)

Section OptionProperties.
Context {W : Type}.
Import OptionTs.

(** C1.  On [Some(v)], [unwrap()] and [expect(msg)] return [v].  On
    [None], [unwrap()] throws the [Error] whose message is
    ['Called unwrap on a None value'] (the specification's
    EmptyValueError) and [expect(msg)] throws an [Error] that differs from
    it only by its message, which is exactly [msg]. *)
Theorem unwrap_expect_Option {T} (o : Option T) (msg : string) :
  match o with
  | SomeOption v =>
      unwrap o = Normal v /\ expect o msg = Normal v
  | NoneOption =>
      unwrap o = Abrupt (VError {| name := "Error"; message := "Called unwrap on a None value" |})
      /\ expect o msg = Abrupt (VError {| name := "Error"; message := msg |})
  end.
Proof. destruct o; split; reflexivity. Qed.

(** C3.  [fromNullable(v)] is [None] exactly when [v] is [null] or
    [undefined]; for every other value it is [Some(v)], in particular for
    the falsy values [0], [false] and [''] (and for [NaN]). *)
Theorem fromNullable_nullish (v : value) :
  (fromNullable v = None <-> (v = VNull \/ v = VUndefined))
  /\ (~ (v = VNull \/ v = VUndefined) -> fromNullable v = Some v)
  /\ fromNullable (VNumber 0) = Some (VNumber 0)
  /\ fromNullable (VBoolean false) = Some (VBoolean false)
  /\ fromNullable (VString "") = Some (VString "")
  /\ fromNullable (VNumber nan) = Some (VNumber nan).
Proof.
  split; [split | split].
  - destruct v; cbv; intro E; try discriminate E; auto.
  - intros [-> | ->]; reflexivity.
  - intro N. destruct v; try reflexivity; exfalso; apply N; auto.
  - repeat split.
Qed.

(** C6.  The functor laws of [map], for callbacks that may have effects
    and may throw: mapping the identity gives back an equal option in an
    unchanged world, and [o.map(f).map(g)] does what
    [o.map(x => g(f(x)))] does. *)
Theorem map_functor_laws {T U V} (o : Option T)
    (f : T -> Js W U) (g : U -> Js W V) (w : W) :
  map o (fun x => ret x) w = (Normal o, w)
  /\ (o' <- map o f ;; map o' g) w = map o (fun x => y <- f x ;; g y) w.
Proof.
  split.
  - destruct o; reflexivity.
  - destruct o as [v|]; [|reflexivity].
    cbv [map bind ret Some]. run_callback f; [|reflexivity].
    run_callback g; reflexivity.
Qed.

End OptionProperties.

(** ** Result *)

Section ResultProperties.
Context {W : Type} {engine : Engine}.
Import ResultTs.

(** C2, as amended.  On [Ok(v)], [unwrap()] returns [v] and [unwrapErr()]
    throws the [Error] ['Called unwrapErr on an Ok value'] (the
    specification's UnwrapErrOnSuccessError).  On [Fail(e)], [unwrapErr()]
    returns [e] and [unwrap()] always throws: when [e] converts to a string
    [s] it throws the [Error] whose message is
    ['Called unwrap on an Err value: '] followed by [s] (the
    specification's UnwrapOnFailureError), and when the conversion itself
    throws, that fault is what [unwrap()] throws. *)
Theorem unwrap_unwrapErr_Result {T E} `{Repr E} (r : Result T E) :
  match r with
  | OkResult v =>
      unwrap r = Normal v
      /\ unwrapErr r
         = Abrupt (VError {| name := "Error"; message := "Called unwrapErr on an Ok value" |})
  | ErrResult e =>
      unwrapErr r = Normal e
      /\ is_normal (unwrap r) = false
      /\ match ToString (repr e) with
         | Normal s =>
             unwrap r
             = Abrupt (VError {| name := "Error";
                                 message := "Called unwrap on an Err value: " ++ s |})
         | Abrupt t => unwrap r = Abrupt t
         end
  end.
Proof.
  destruct r as [v | e]; cbn.
  - split; reflexivity.
  - unfold template. destruct (ToString (repr e)) as [s | t]; cbn.
    + rewrite append_empty_r. repeat split.
    + repeat split.
Qed.

(** The results of [combine]'s loop, by the shape of what is left to visit. *)
Lemma combine_loop_all_Ok {T E} `{Repr E} (vs values : list T) :
  combine_loop (List.map (@Ok T E) vs) values = Normal (Ok (values ++ vs)%list).
Proof.
  revert values. induction vs as [|v vs IH]; intro values; cbn.
  - now rewrite app_nil_r.
  - rewrite IH, <- app_assoc. reflexivity.
Qed.

Lemma combine_loop_first_Fail {T E} `{Repr E} (vs : list T) (e : E)
    (rest : list (Result T E)) (values : list T) :
  combine_loop (List.map Ok vs ++ Fail e :: rest)%list values = Normal (Fail e).
Proof.
  revert values. induction vs as [|v vs IH]; intro values; cbn.
  - reflexivity.
  - apply IH.
Qed.

(** Every array of results is all [Ok], or has a first [Fail]. *)
Lemma results_shape {T E} (results : list (Result T E)) :
  (exists vs, results = List.map Ok vs)
  \/ (exists vs e rest, results = (List.map Ok vs ++ Fail e :: rest)%list).
Proof.
  induction results as [|[v | e] results IH].
  - left. exists []. reflexivity.
  - destruct IH as [[vs ->] | [vs [e [rest ->]]]].
    + left. exists (v :: vs). reflexivity.
    + right. exists (v :: vs), e, rest. reflexivity.
  - right. exists [], e, results. reflexivity.
Qed.

(** C4.  [combine] returns [Ok] of the payloads, in order, when every
    element is [Ok] (so [Ok([])] for the empty array); otherwise it returns
    [Fail] of the payload of the first [Fail], whatever comes after it.
    Every array falls under one of the two cases. *)
Theorem combine_first_failure {T E} `{Repr E} :
  combine (@nil (Result T E)) = Normal (Ok [])
  /\ (forall vs : list T,
        combine (List.map (@Ok T E) vs) = Normal (Ok vs))
  /\ (forall (vs : list T) (e : E) (rest : list (Result T E)),
        combine (List.map Ok vs ++ Fail e :: rest)%list = Normal (Fail e))
  /\ (forall results : list (Result T E),
        (exists vs, results = List.map Ok vs /\ combine results = Normal (Ok vs))
        \/ (exists vs e rest,
              results = (List.map Ok vs ++ Fail e :: rest)%list
              /\ combine results = Normal (Fail e))).
Proof.
  assert (A : forall vs : list T, combine (List.map (@Ok T E) vs) = Normal (Ok vs))
    by (intro vs; unfold combine; now rewrite combine_loop_all_Ok).
  assert (B : forall (vs : list T) (e : E) (rest : list (Result T E)),
             combine (List.map Ok vs ++ Fail e :: rest)%list = Normal (Fail e))
    by (intros; unfold combine; apply combine_loop_first_Fail).
  repeat split; auto.
  intro results. destruct (results_shape results) as [[vs ->] | [vs [e [rest ->]]]].
  - left. exists vs. auto.
  - right. exists vs, e, rest. auto.
Qed.

(** What [fromThrowable] does, by what [f] does in the world [w]. *)
Lemma fromThrowable_returns {T} (f : unit -> Js W T) (w w' : W) (v : T) :
  f tt w = (Normal v, w') ->
  fromThrowable f w = (Normal (Ok v), w').
Proof. intro E. cbv [fromThrowable try_catch bind ret]. now rewrite E. Qed.

Lemma fromThrowable_Error {T} (f : unit -> Js W T) (w w' : W) (err : Error) :
  f tt w = (Abrupt (VError err), w') ->
  fromThrowable f w = (Normal (Fail err), w').
Proof. intro E. cbv [fromThrowable try_catch bind ret]. now rewrite E. Qed.

Lemma fromThrowable_wraps {T} (f : unit -> Js W T) (w w' : W) (e : value) (s : string) :
  f tt w = (Abrupt e, w') ->
  instanceof_Error e = false ->
  String_ e = Normal s ->
  fromThrowable f w = (Normal (Fail (new_Error s)), w').
Proof.
  intros E I S. cbv [fromThrowable try_catch bind ret lift]. rewrite E.
  destruct e; try discriminate I; cbn [normalize_fault]; rewrite S; reflexivity.
Qed.

Lemma fromThrowable_leaks {T} (f : unit -> Js W T) (w w' : W) (e t : value) :
  f tt w = (Abrupt e, w') ->
  instanceof_Error e = false ->
  String_ e = Abrupt t ->
  fromThrowable f w = (Abrupt t, w').
Proof.
  intros E I S. cbv [fromThrowable try_catch bind ret lift]. rewrite E.
  destruct e; try discriminate I; cbn [normalize_fault]; rewrite S; reflexivity.
Qed.

(** C8.  [map] on [Fail(e)] gives [Fail(e)], and [mapErr] on [Ok(v)] gives
    [Ok(v)]; the callback is not run, so the world is unchanged. *)
Theorem map_mapErr_untouched {T E U F} (v : T) (e : E)
    (f : T -> Js W U) (g : E -> Js W F) (w : W) :
  map (Fail e) f w = (Normal (Fail e), w)
  /\ mapErr (Ok v) g w = (Normal (Ok v), w).
Proof. split; reflexivity. Qed.

End ResultProperties.

(** C2, the claim as the specification states it, at
    [Fail(Symbol('id')).unwrap()]: the template literal rejects the Symbol,
    so the fault is a [TypeError] and not an [Error] whose message embeds a
    string form of the payload. *)
Lemma unwrap_Fail_Symbol :
  @ResultTs.unwrap ExactDecimal.engine unit value _ (ResultTs.Fail (VSymbol (Some "id")))
  = Abrupt (VError {| name := "TypeError";
                      message := "Cannot convert a Symbol value to a string" |})
  /\ ~ (exists s : string,
          @ResultTs.unwrap ExactDecimal.engine unit value _
            (ResultTs.Fail (VSymbol (Some "id")))
          = Abrupt (VError {| name := "Error";
                              message := "Called unwrap on an Err value: " ++ s |})).
Proof.
  split; [reflexivity |]. intros [s E]. discriminate E.
Qed.

(** C5, at [fromThrowable(() => { throw Object.create(null); })]: the
    fault is caught, it is not an [Error] instance, and [String(e)] throws
    a [TypeError] inside the handler, which [fromThrowable] lets through
    instead of returning a [Fail]. *)
Theorem fromThrowable_raises :
  @ResultTs.fromThrowable unit ExactDecimal.engine nat (thrower null_prototype_object) tt
  = (Abrupt (VError {| name := "TypeError";
                       message := "Cannot convert object to primitive value" |}), tt).
Proof. reflexivity. Qed.

(** ** The free function [match] *)

Section MatchProperties.
Context {W : Type}.

(** C7.  The free function [match(c, p)] is the method call [c.match(p)],
    for an [Option] with [Some]/[None] handlers and for a [Result] with
    [Ok]/[Err] handlers: it runs the handler of the active variant on the
    payload and nothing else. *)
Theorem match_delegates {T E U}
    (o : OptionTs.Option T) (po : OptionTs.Patterns W T U)
    (r : ResultTs.Result T E) (pr : ResultTs.Patterns W T E U) :
  MatchTs.match_ o po = OptionTs.match_ o po
  /\ MatchTs.match_ r pr = ResultTs.match_ r pr
  /\ (forall v, MatchTs.match_ (OptionTs.Some v) po = OptionTs.SomeArm po v)
  /\ MatchTs.match_ (@OptionTs.None T) po = OptionTs.NoneArm po tt
  /\ (forall v, MatchTs.match_ (@ResultTs.Ok T E v) pr = ResultTs.OkArm pr v)
  /\ (forall e, MatchTs.match_ (@ResultTs.Fail T E e) pr = ResultTs.ErrArm pr e).
Proof. repeat split. Qed.

End MatchProperties.

(** ** Laziness of the fallbacks *)

Section Laziness.
Context {W : Type}.

(** C9.  On [Some(v)] and on [Ok(v)], [unwrapOrElse(f)] and [orElse(f)]
    are the same computation for every [f]: they return the payload
    (respectively the container) and leave the world, and with it the
    count of invocations of [f], as it was.  On [None] and on [Fail(e)]
    they are one invocation of [f] (on [e] for a [Result]): the count goes
    up by exactly one, and the outcome and the world are those of that
    invocation. *)
Theorem fallbacks_are_lazy {T E F} (v : T) (e : E)
    (f : unit -> Js W T) (g : unit -> Js W (OptionTs.Option T))
    (h : E -> Js W T) (k : E -> Js W (ResultTs.Result T F))
    (calls : nat) (w : W) :
  (* Some / Ok: no invocation *)
  (OptionTs.unwrapOrElse (OptionTs.Some v) f = ret v
   /\ OptionTs.orElse (OptionTs.Some v) g = ret (OptionTs.Some v)
   /\ ResultTs.unwrapOrElse (@ResultTs.Ok T E v) h = ret v
   /\ ResultTs.orElse (@ResultTs.Ok T E v) k = ret (ResultTs.Ok v))
  /\ (OptionTs.unwrapOrElse (OptionTs.Some v) (counted f) (calls, w) = (Normal v, (calls, w))
      /\ OptionTs.orElse (OptionTs.Some v) (counted g) (calls, w)
         = (Normal (OptionTs.Some v), (calls, w))
      /\ ResultTs.unwrapOrElse (@ResultTs.Ok T E v) (counted h) (calls, w)
         = (Normal v, (calls, w))
      /\ ResultTs.orElse (@ResultTs.Ok T E v) (counted k) (calls, w)
         = (Normal (ResultTs.Ok v), (calls, w)))
  (* None / Fail: one invocation *)
  /\ (OptionTs.unwrapOrElse OptionTs.None f = f tt
      /\ OptionTs.orElse OptionTs.None g = g tt
      /\ ResultTs.unwrapOrElse (@ResultTs.Fail T E e) h = h e
      /\ ResultTs.orElse (@ResultTs.Fail T E e) k = k e)
  /\ (OptionTs.unwrapOrElse OptionTs.None (counted f) (calls, w)
      = (fst (f tt w), (S calls, snd (f tt w)))
      /\ OptionTs.orElse OptionTs.None (counted g) (calls, w)
         = (fst (g tt w), (S calls, snd (g tt w)))
      /\ ResultTs.unwrapOrElse (@ResultTs.Fail T E e) (counted h) (calls, w)
         = (fst (h e w), (S calls, snd (h e w)))
      /\ ResultTs.orElse (@ResultTs.Fail T E e) (counted k) (calls, w)
         = (fst (k e w), (S calls, snd (k e w)))).
Proof.
  repeat split; cbn; unfold counted;
    match goal with
    | |- context [let (_, _) := ?c in _] => destruct c; reflexivity
    end.
Qed.

End Laziness.

(** ** Totality of [zip] and [combine] *)

Section Totality.
Context {engine : Engine}.

(** The extractors, under the guards they are called behind. *)
Lemma unwrap_behind_isSome {U} (other : OptionTs.Option U) :
  OptionTs.isSome other = true -> exists u, OptionTs.unwrap other = Normal u.
Proof. destruct other as [u|]; cbn; intro G; [exists u; reflexivity | discriminate G]. Qed.

Lemma unwrapErr_behind_isErr {T E} (result : ResultTs.Result T E) :
  ResultTs.isErr result = true -> exists e, ResultTs.unwrapErr result = Normal e.
Proof. destruct result as [v | e]; cbn; intro G; [discriminate G | exists e; reflexivity]. Qed.

Lemma unwrap_behind_not_isErr {T E} `{Repr E} (result : ResultTs.Result T E) :
  ResultTs.isErr result = false -> exists v, ResultTs.unwrap result = Normal v.
Proof. destruct result as [v | e]; cbn; intro G; [exists v; reflexivity | discriminate G]. Qed.

Lemma combine_loop_total {T E} `{Repr E} (results : list (ResultTs.Result T E)) :
  forall values, exists r, ResultTs.combine_loop results values = Normal r.
Proof.
  induction results as [|result rest IH]; intro values; cbn.
  - eauto.
  - destruct (ResultTs.isErr result) eqn:G.
    + destruct (unwrapErr_behind_isErr result G) as [e ->]. eauto.
    + destruct (unwrap_behind_not_isErr result G) as [v ->]. apply IH.
Qed.

(** C10.  [zip] and [combine] never throw.  [zip] completes normally with
    [Some([a, b])] when both options are [Some] and with [None] otherwise;
    [combine] completes normally on every array, also when payloads of its
    [Fail] elements cannot be converted to a string.  The extractors they
    call complete normally whenever the guard in front of the call
    holds. *)
Theorem zip_combine_total {T U E} `{Repr E}
    (self : OptionTs.Option T) (other : OptionTs.Option U)
    (results : list (ResultTs.Result T E)) :
  OptionTs.zip self other
  = Normal match self, other with
           | OptionTs.SomeOption a, OptionTs.SomeOption b => OptionTs.Some (a, b)
           | _, _ => OptionTs.None
           end
  /\ (exists r, ResultTs.combine results = Normal r)
  /\ (OptionTs.isSome other = true -> is_normal (OptionTs.unwrap other) = true)
  /\ (forall result : ResultTs.Result T E,
        (ResultTs.isErr result = true -> is_normal (ResultTs.unwrapErr result) = true)
        /\ (ResultTs.isErr result = false -> is_normal (ResultTs.unwrap result) = true)).
Proof.
  split; [| split; [| split]].
  - destruct self, other; reflexivity.
  - apply combine_loop_total.
  - intro G. destruct (unwrap_behind_isSome other G) as [u ->]. reflexivity.
  - intro result. split; intro G.
    + destruct (unwrapErr_behind_isErr result G) as [e ->]. reflexivity.
    + destruct (unwrap_behind_not_isErr result G) as [v ->]. reflexivity.
Qed.

End Totality.

(** ** The examples of the test suite *)

Section Examples.
#[local] Existing Instance ExactDecimal.engine.
Let W : Type := unit.
Local Open Scope float_scope.

Example Some_unwrap : OptionTs.unwrap (OptionTs.Some 42) = Normal 42.
Proof. reflexivity. Qed.

Example None_unwrap_throws :
  OptionTs.unwrap (@OptionTs.None float)
  = Abrupt (VError (new_Error "Called unwrap on a None value")).
Proof. reflexivity. Qed.

Example Some_map :
  OptionTs.map (W := W) (OptionTs.Some 2) (fun x => ret (x * 3)) tt
  = (Normal (OptionTs.Some 6), tt).
Proof. reflexivity. Qed.

Example Some_zip_Some :
  OptionTs.zip (OptionTs.Some 1) (OptionTs.Some "a"%string)
  = Normal (OptionTs.Some (1, "a"%string)).
Proof. reflexivity. Qed.

Example Some_zip_None :
  OptionTs.zip (OptionTs.Some 1) (@OptionTs.None string) = Normal OptionTs.None.
Proof. reflexivity. Qed.

Example xor_examples :
  OptionTs.xor (OptionTs.Some 1) OptionTs.None = OptionTs.Some 1
  /\ OptionTs.xor (OptionTs.Some 1) (OptionTs.Some 2) = OptionTs.None
  /\ OptionTs.xor (@OptionTs.None float) OptionTs.None = OptionTs.None.
Proof. repeat split. Qed.

Example fromNullable_toNull :
  OptionTs.toNull (OptionTs.fromNullable (VNumber 0)) = VNumber 0
  /\ OptionTs.toNull (OptionTs.fromNullable VUndefined) = VNull
  /\ OptionTs.toNull (OptionTs.fromNullable VNull) = VNull.
Proof. repeat split. Qed.

Example Fail_unwrap_throws :
  ResultTs.unwrap (T := float) (ResultTs.Fail "e"%string)
  = Abrupt (VError (new_Error "Called unwrap on an Err value: e")).
Proof. reflexivity. Qed.

Example Ok_unwrapErr_throws :
  ResultTs.unwrapErr (E := string) (ResultTs.Ok 42)
  = Abrupt (VError (new_Error "Called unwrapErr on an Ok value")).
Proof. reflexivity. Qed.

Example combine_all_Ok :
  ResultTs.combine (E := string) [ResultTs.Ok 1; ResultTs.Ok 2; ResultTs.Ok 3]
  = Normal (ResultTs.Ok [1; 2; 3]).
Proof. reflexivity. Qed.

Example combine_with_Fail :
  ResultTs.combine [ResultTs.Ok 1; ResultTs.Fail "fail"%string; ResultTs.Ok 3]
  = Normal (ResultTs.Fail "fail"%string).
Proof. reflexivity. Qed.

Example fromThrowable_42 :
  ResultTs.fromThrowable (W := W) (fun _ => ret 42) tt = (Normal (ResultTs.Ok 42), tt).
Proof. reflexivity. Qed.

Example fromThrowable_boom :
  ResultTs.fromThrowable (W := W) (T := float) (thrower (VError (new_Error "boom"))) tt
  = (Normal (ResultTs.Fail (new_Error "boom")), tt).
Proof. reflexivity. Qed.

Example fromThrowable_plain :
  ResultTs.fromThrowable (W := W) (T := float) (thrower (VString "string error")) tt
  = (Normal (ResultTs.Fail (new_Error "string error")), tt).
Proof. reflexivity. Qed.

Example fromThrowable_Symbol :
  ResultTs.fromThrowable (W := W) (T := float) (thrower (VSymbol (Some "s"%string))) tt
  = (Normal (ResultTs.Fail (new_Error "Symbol(s)")), tt).
Proof. reflexivity. Qed.

Example match_standalone :
  MatchTs.match_ (W := W) (OptionTs.Some 42)
    (OptionTs.mkPatterns (fun v => ret (v + 1)) (fun _ => ret 0)) tt
  = (Normal 43, tt).
Proof. reflexivity. Qed.

End Examples.

(* ===================================================================== *)
(** * Further properties of src/option.ts                                *)
(* ===================================================================== *)

Section OptionAlgebra.
Context {W : Type}.
Import OptionTs.

(** X1.  [isNone()] is the negation of [isSome()], and [isSome()] is the
    guard of the extractors: [unwrap()] and [expect(msg)] complete normally
    exactly when it is true, and then they return the same payload, which
    is also what [unwrapOr(d)] returns. *)
Theorem isSome_guards_extractors {T} (o : Option T) (msg : string) (d : T) :
  isNone o = negb (isSome o)
  /\ is_normal (unwrap o) = isSome o
  /\ is_normal (expect o msg) = isSome o
  /\ (isSome o = true ->
        expect o msg = unwrap o /\ unwrap o = Normal (unwrapOr o d))
  /\ (isSome o = false -> unwrapOr o d = d).
Proof.
  destruct o as [v|]; cbn; repeat split; easy.
Qed.

(** X2.  [flatMap] is a monadic bind with [Some] as unit, for callbacks
    with effects: [Some(v).flatMap(f)] is [f(v)], [o.flatMap(Some)] is [o],
    [o.flatMap(f).flatMap(g)] is [o.flatMap(x => f(x).flatMap(g))], and
    [o.map(h)] is [o.flatMap(x => Some(h(x)))]. *)
Theorem flatMap_monad_laws {T U V} (o : Option T) (v : T)
    (f : T -> Js W (Option U)) (g : U -> Js W (Option V))
    (h : T -> Js W U) (w : W) :
  flatMap (Some v) f w = f v w
  /\ flatMap o (fun x => ret (Some x)) w = (Normal o, w)
  /\ (o' <- flatMap o f ;; flatMap o' g) w
     = flatMap o (fun x => o' <- f x ;; flatMap o' g) w
  /\ map o h w = flatMap o (fun x => u <- h x ;; ret (Some u)) w.
Proof.
  repeat split; destruct o as [x|]; reflexivity.
Qed.

(** X3.  Two filters in a row are one filter by the short-circuit
    conjunction of the predicates: [o.filter(p).filter(q)] does what
    [o.filter(x => p(x) && q(x))] does, [q] being run only where [p]
    returned [true]. *)
Theorem filter_filter {T} (o : Option T) (p q : T -> Js W bool) (w : W) :
  (o' <- filter o p ;; filter o' q) w
  = filter o (fun x => b <- p x ;; if b then q x else ret false) w.
Proof.
  destruct o as [v|]; [|reflexivity].
  cbv [filter bind ret None]. run_callback p; [|reflexivity].
  destruct a; [|reflexivity]. run_callback q; reflexivity.
Qed.

(** X4.  What [filter] lets through: if [o.filter(p)] completes with
    [Some(v)], then [o] is that [Some(v)] and [p(v)] returned [true],
    leaving the world that [filter] leaves. *)
Theorem filter_Some_inv {T} (o : Option T) (p : T -> Js W bool) (v : T) (w w' : W)
    (R : filter o p w = (Normal (Some v), w')) :
  o = Some v /\ p v w = (Normal true, w').
Proof.
  destruct o as [x|]; [|discriminate R].
  cbv [filter bind ret Some None] in R. cbv [Some].
  destruct (p x w) as [[[|] | t] w1] eqn:P; try discriminate R.
  injection R as -> ->. now rewrite P.
Qed.

(** X5.  [and], [or] and [xor] are conjunction, disjunction and exclusive
    disjunction of presence; [or] is associative with [None] as unit, [and]
    is associative, and the result of [or] and [xor], when it is [Some], is
    one of the two operands, the left one first. *)
Theorem presence_algebra {T U V} (a b c : Option T) (u : Option U) (x : Option V) :
  isSome (and a u) = isSome a && isSome u
  /\ isSome (or a b) = isSome a || isSome b
  /\ isSome (xor a b) = xorb (isSome a) (isSome b)
  /\ or (or a b) c = or a (or b c)
  /\ or None a = a /\ or a None = a
  /\ and (and a u) x = and a (and u x)
  /\ (isSome a = true -> or a b = a /\ and a u = u)
  /\ (isSome a = false -> or a b = b /\ xor a b = b)
  /\ (isSome b = false -> xor a b = a)
  /\ (isSome a = true -> isSome b = true -> xor a b = None).
Proof.
  destruct a, b, c, u, x; cbn; repeat split; intros; try discriminate; reflexivity.
Qed.

(** X6.  The eager methods are the lazy ones at a constant callback:
    [o.unwrapOr(d)] is [o.unwrapOrElse(() => d)], [o.or(b)] is
    [o.orElse(() => b)], [o.and(u)] is [o.flatMap(_ => u)], and
    [o.unwrapOr(d)] is [o.match({ Some: v => v, None: () => d })]. *)
Theorem eager_is_lazy_at_constant {T U} (o b : Option T) (u : Option U) (d : T) :
  unwrapOrElse (W := W) o (fun _ => ret d) = ret (unwrapOr o d)
  /\ orElse (W := W) o (fun _ => ret b) = ret (or o b)
  /\ flatMap (W := W) o (fun _ => ret u) = ret (and o u)
  /\ match_ (W := W) o (mkPatterns (fun v => ret v) (fun _ => ret d)) = ret (unwrapOr o d).
Proof. destruct o; repeat split. Qed.

(** X7.  [fromNullable(v).toNull()] is [null] when [v] is [null] or
    [undefined] and is [v] otherwise; [fromNullable(v).toUndefined()] is
    [undefined] in the first case and [v] otherwise. *)
Theorem fromNullable_to_native (v : value) :
  ((v = VNull \/ v = VUndefined) ->
     toNull (fromNullable v) = VNull /\ toUndefined (fromNullable v) = VUndefined)
  /\ (~ (v = VNull \/ v = VUndefined) ->
        toNull (fromNullable v) = v /\ toUndefined (fromNullable v) = v).
Proof.
  split.
  - intros [-> | ->]; split; reflexivity.
  - intro N. destruct v; try (split; reflexivity); exfalso; apply N; auto.
Qed.

(** X8.  Going to the native representation and back gives the option
    again, provided its payload (if any) is neither [null] nor [undefined]:
    [Some(null)] and [Some(undefined)] come back as [None]. *)
Theorem to_native_fromNullable (o : Option value)
    (N : forall v, o = Some v -> v <> VNull /\ v <> VUndefined) :
  fromNullable (toNull o) = o /\ fromNullable (toUndefined o) = o.
Proof.
  destruct o as [v|]; [|split; reflexivity].
  destruct (N v eq_refl) as [N1 N2].
  destruct v; try (split; reflexivity); congruence.
Qed.

Lemma to_native_fromNullable_witness :
  fromNullable (toNull (Some (VNumber 0))) = Some (VNumber 0)
  /\ fromNullable (toUndefined (Some (VNumber 0))) = Some (VNumber 0).
Proof.
  apply (to_native_fromNullable (Some (VNumber 0))).
  intros v E. injection E as <-. split; discriminate.
Defined.

(** X9.  [inspect] never changes the option: if [o.inspect(f)] completes
    normally, its result is [o]; for [Some(v)] the world is the one [f(v)]
    left, and for [None] it is untouched. *)
Theorem inspect_returns_self {T} (o o' : Option T) (f : T -> Js W unit) (w w' : W)
    (R : inspect o f w = (Normal o', w')) :
  o' = o
  /\ match o with
     | SomeOption v => f v w = (Normal tt, w')
     | NoneOption => w' = w
     end.
Proof.
  destruct o as [v|]; cbv [inspect bind ret] in R.
  - destruct (f v w) as [[[] | t] w1]; [|discriminate R].
    injection R as <- <-. split; reflexivity.
  - injection R as <- <-. split; reflexivity.
Qed.

End OptionAlgebra.

Lemma filter_Some_inv_witness :
  OptionTs.Some 42%float = OptionTs.Some 42%float
  /\ (fun x : float => ret (W := unit) (PrimFloat.ltb 10 x)) 42%float tt = (Normal true, tt).
Proof.
  apply (filter_Some_inv (OptionTs.Some 42%float)
           (fun x => ret (PrimFloat.ltb 10 x)) 42%float tt tt).
  reflexivity.
Defined.

Lemma inspect_returns_self_witness :
  OptionTs.Some 1%float = OptionTs.Some 1%float
  /\ counted (W := unit) (fun _ : float => ret tt) 1%float (0, tt) = (Normal tt, (1, tt)).
Proof.
  apply (inspect_returns_self (OptionTs.Some 1%float) (OptionTs.Some 1%float)
           (counted (fun _ => ret tt)) (0, tt) (1, tt)).
  reflexivity.
Defined.

(** Case analysis on what each callback does, wherever the goal runs one. *)
Ltac run_all :=
  repeat match goal with
         | |- context [let (_, _) := ?h ?a ?w in _] =>
             is_var h; destruct (h a w) as [[? | ?] ?]
         end.

Section OptionCallbacks.
Context {W : Type}.
Import OptionTs.

(** X10.  How often a method of [Option] runs its callback.  [map],
    [flatMap], [filter] and [inspect] run it once on [Some] and never on
    [None], whether or not it throws; [match] runs exactly one of its two
    handlers, once. *)
Theorem callbacks_run_once_Option {T U} (o : Option T)
    (f : T -> Js W U) (k : T -> Js W (Option U))
    (p : T -> Js W bool) (i : T -> Js W unit)
    (s : T -> Js W U) (n : unit -> Js W U) (calls : nat) (w : W) :
  calls_after (map o (counted f) (calls, w)) = (if isSome o then S calls else calls)
  /\ calls_after (flatMap o (counted k) (calls, w)) = (if isSome o then S calls else calls)
  /\ calls_after (filter o (counted p) (calls, w)) = (if isSome o then S calls else calls)
  /\ calls_after (inspect o (counted i) (calls, w)) = (if isSome o then S calls else calls)
  /\ calls_after (match_ o (mkPatterns (counted s) (counted n)) (calls, w)) = S calls.
Proof.
  destruct o as [v|]; repeat split;
    cbv [map flatMap filter inspect match_ SomeArm NoneArm bind ret counted calls_after isSome];
    run_all; reflexivity.
Qed.


End OptionCallbacks.



Section OptionToString.
Context {engine : Engine}.
Import OptionTs.

(** X12.  [toString()] of an option throws exactly when the conversion of
    the payload to a string throws ([None] never does), and its result
    tells the variant: two options with the same string are both [Some] or
    both [None]. *)
Theorem toString_Option {T} `{Repr T} (o o1 o2 : Option T) (s : string)
    (E1 : toString o1 = Normal s) (E2 : toString o2 = Normal s) :
  isSome o1 = isSome o2
  /\ is_normal (toString o)
     = match o with
       | SomeOption v => is_normal (ToString (repr v))
       | NoneOption => true
       end.
Proof.
  split.
  - destruct o1 as [v1|], o2 as [v2|]; cbn in *; try reflexivity;
      unfold template in *;
      repeat match goal with
             | E : context [ToString ?x] |- _ => destruct (ToString x)
             end;
      cbn in *; congruence.
  - destruct o as [v|]; cbn; [|reflexivity].
    unfold template. destruct (ToString (repr v)); reflexivity.
Qed.

End OptionToString.

Lemma toString_Option_witness :
  OptionTs.isSome (OptionTs.Some (VString "x")) = OptionTs.isSome (OptionTs.Some (VString "x"))
  /\ is_normal (OptionTs.toString (engine := ExactDecimal.engine)
                  (OptionTs.Some (VSymbol Datatypes.None)))
     = is_normal (ToString (engine := ExactDecimal.engine) (repr (VSymbol Datatypes.None))).
Proof.
  apply (toString_Option (engine := ExactDecimal.engine)
           (OptionTs.Some (VSymbol Datatypes.None))
           (OptionTs.Some (VString "x")) (OptionTs.Some (VString "x")) "Some(x)");
    reflexivity.
Defined.

(* ===================================================================== *)
(** * Further properties of src/result.ts                                *)
(* ===================================================================== *)

Section ResultAlgebra.
Context {W : Type} {engine : Engine}.
Import ResultTs.

(** X13.  [isErr()] is the negation of [isOk()], and the two are the
    guards of the extractors: [unwrap()] and [expect(msg)] complete
    normally exactly on [Ok], [unwrapErr()] and [expectErr(msg)] exactly on
    [Err].  On the wrong variant [expect] and [expectErr] throw
    [new Error(msg)] whatever the payload is, since they do not convert
    it. *)
Theorem isOk_guards_extractors {T E} `{Repr E} (r : Result T E) (msg : string) (d : T) :
  isErr r = negb (isOk r)
  /\ is_normal (unwrap r) = isOk r
  /\ is_normal (expect r msg) = isOk r
  /\ is_normal (unwrapErr r) = isErr r
  /\ is_normal (expectErr r msg) = isErr r
  /\ (isOk r = true ->
        expect r msg = unwrap r
        /\ unwrap r = Normal (unwrapOr r d)
        /\ expectErr r msg = Abrupt (VError {| name := "Error"; message := msg |}))
  /\ (isOk r = false ->
        expectErr r msg = unwrapErr r
        /\ unwrapOr r d = d
        /\ expect r msg = Abrupt (VError {| name := "Error"; message := msg |})).
Proof.
  destruct r as [v | e]; cbn; unfold template;
    try destruct (ToString (repr e)); repeat split; easy.
Qed.

(** X14.  [flatMap] is a monadic bind with [Ok] as unit, for callbacks
    with effects, and it stops at the first failure:
    [Ok(v).flatMap(f)] is [f(v)], [r.flatMap(Ok)] is [r],
    [r.flatMap(f).flatMap(g)] is [r.flatMap(x => f(x).flatMap(g))],
    [r.map(h)] is [r.flatMap(x => Ok(h(x)))], and on [Fail(e)] a chain of
    two [flatMap] returns [Fail(e)] in an unchanged world. *)
Theorem flatMap_monad_laws_Result {T U V E} (r : Result T E) (v : T) (e : E)
    (f : T -> Js W (Result U E)) (g : U -> Js W (Result V E))
    (h : T -> Js W U) (w : W) :
  flatMap (Ok v) f w = f v w
  /\ flatMap r (fun x => ret (Ok x)) w = (Normal r, w)
  /\ (r' <- flatMap r f ;; flatMap r' g) w
     = flatMap r (fun x => r' <- f x ;; flatMap r' g) w
  /\ map r h w = flatMap r (fun x => u <- h x ;; ret (Ok u)) w
  /\ (r' <- flatMap (Fail e) f ;; flatMap r' g) w = (Normal (Fail e), w).
Proof.
  repeat split; destruct r as [x | x]; reflexivity.
Qed.

(** X15.  [map] and [mapErr] satisfy the functor laws, each on its side:
    mapping the identity gives back an equal result in an unchanged world,
    and two maps in a row do what one map by the composed callback does. *)
Theorem map_mapErr_functor_laws {T U V E F G} (r : Result T E)
    (f : T -> Js W U) (g : U -> Js W V)
    (f' : E -> Js W F) (g' : F -> Js W G) (w : W) :
  map r (fun x => ret x) w = (Normal r, w)
  /\ (r' <- map r f ;; map r' g) w = map r (fun x => y <- f x ;; g y) w
  /\ mapErr r (fun x => ret x) w = (Normal r, w)
  /\ (r' <- mapErr r f' ;; mapErr r' g') w = mapErr r (fun x => y <- f' x ;; g' y) w.
Proof.
  destruct r as [v | e]; repeat split;
    cbv [map mapErr bind ret Ok Fail]; run_all; reflexivity.
Qed.

(** X16.  [map] and [mapErr] act on different sides and commute:
    [r.map(f).mapErr(g)] does what [r.mapErr(g).map(f)] does, running [f]
    alone on [Ok] and [g] alone on [Err]. *)
Theorem map_mapErr_commute {T U E F} (r : Result T E)
    (f : T -> Js W U) (g : E -> Js W F) (w : W) :
  (r' <- map r f ;; mapErr r' g) w = (r' <- mapErr r g ;; map r' f) w
  /\ (r' <- map r f ;; mapErr r' g) w
     = match r with
       | OkResult v => (u <- f v ;; ret (Ok u)) w
       | ErrResult e => (x <- g e ;; ret (Fail x)) w
       end.
Proof.
  destruct r as [v | e]; split;
    cbv [map mapErr bind ret Ok Fail]; run_all; reflexivity.
Qed.

(** X17.  [mapOr] and [mapOrElse] are [map] followed by [unwrapOr] and
    [unwrapOrElse]; [mapOrElse(d, f)] is [match] with the handlers
    [{ Ok: f, Err: d }], and [unwrapOrElse(d)] is [mapOrElse(d, v => v)]. *)
Theorem mapOr_mapOrElse_decompose {T U E} (r : Result T E) (dflt : U)
    (d : E -> Js W U) (f : T -> Js W U) (k : E -> Js W T) (w : W) :
  mapOr r dflt f w = (r' <- map r f ;; ret (unwrapOr r' dflt)) w
  /\ mapOrElse r d f w = (r' <- map r f ;; unwrapOrElse r' d) w
  /\ mapOrElse r d f = match_ r (mkPatterns f d)
  /\ unwrapOrElse r k = mapOrElse r k (fun v => ret v)
  /\ mapOr r dflt f = mapOrElse r (fun _ => ret dflt) f.
Proof.
  destruct r as [v | e]; repeat split;
    cbv [mapOr mapOrElse map unwrapOr unwrapOrElse bind ret Ok Fail];
    run_all; reflexivity.
Qed.

(** X18.  [and] and [or] are conjunction and disjunction of success; both
    are associative; [and] keeps the first failure and [or] the first
    success.  They and [unwrapOr] are the lazy methods at a constant
    callback: [r.and(b)] is [r.flatMap(_ => b)], [r.or(x)] is
    [r.orElse(_ => x)], [r.unwrapOr(d)] is [r.unwrapOrElse(_ => d)]. *)
Theorem success_algebra {T U V E F G} (a : Result T E) (b : Result U E) (c : Result V E)
    (x : Result T F) (y : Result T G) (d : T) :
  isOk (and a b) = isOk a && isOk b
  /\ isOk (or a x) = isOk a || isOk x
  /\ and (and a b) c = and a (and b c)
  /\ or (or a x) y = or a (or x y)
  /\ (forall v, a = Ok v -> and a b = b /\ or a x = Ok v)
  /\ (forall e, a = Fail e -> or a x = x /\ and a b = Fail e)
  /\ flatMap (W := W) a (fun _ => ret b) = ret (and a b)
  /\ orElse (W := W) a (fun _ => ret x) = ret (or a x)
  /\ unwrapOrElse (W := W) a (fun _ => ret d) = ret (unwrapOr a d).
Proof.
  repeat split; try (destruct a, b, c, x, y; reflexivity);
    intros; subst a; reflexivity.
Qed.

(** X19.  How often a method of [Result] runs its callbacks.  [map],
    [flatMap], [mapOr] and [inspect] run theirs once on [Ok] and never on
    [Err]; [mapErr], [orElse], [unwrapOrElse] and [inspectErr] once on
    [Err] and never on [Ok]; [mapOrElse] and [match] run exactly one of
    their two callbacks, once. *)
Theorem callbacks_run_once_Result {T U E F} (r : Result T E)
    (f : T -> Js W U) (k : T -> Js W (Result U E)) (i : T -> Js W unit)
    (f' : E -> Js W F) (k' : E -> Js W (Result T F)) (d' : E -> Js W T)
    (i' : E -> Js W unit) (d : E -> Js W U) (dflt : U) (calls : nat) (w : W) :
  (calls_after (map r (counted f) (calls, w)) = (if isOk r then S calls else calls)
   /\ calls_after (flatMap r (counted k) (calls, w)) = (if isOk r then S calls else calls)
   /\ calls_after (mapOr r dflt (counted f) (calls, w)) = (if isOk r then S calls else calls)
   /\ calls_after (inspect r (counted i) (calls, w)) = (if isOk r then S calls else calls))
  /\ (calls_after (mapErr r (counted f') (calls, w)) = (if isErr r then S calls else calls)
      /\ calls_after (orElse r (counted k') (calls, w)) = (if isErr r then S calls else calls)
      /\ calls_after (unwrapOrElse r (counted d') (calls, w))
         = (if isErr r then S calls else calls)
      /\ calls_after (inspectErr r (counted i') (calls, w))
         = (if isErr r then S calls else calls))
  /\ calls_after (mapOrElse r (counted d) (counted f) (calls, w)) = S calls
  /\ calls_after (match_ r (mkPatterns (counted f) (counted d)) (calls, w)) = S calls.
Proof.
  destruct r as [v | e]; repeat split;
    cbv [map flatMap mapOr inspect mapErr orElse unwrapOrElse inspectErr mapOrElse
         match_ OkArm ErrArm bind ret counted calls_after isOk isErr];
    run_all; reflexivity.
Qed.

(** X20.  [inspect] and [inspectErr] never change the result: if
    [r.inspect(f).inspectErr(g)] completes normally, its result is [r]. *)
Theorem inspect_inspectErr_return_self {T E} (r r' : Result T E)
    (f : T -> Js W unit) (g : E -> Js W unit) (w w' : W)
    (R : (x <- inspect r f ;; inspectErr x g) w = (Normal r', w')) :
  r' = r
  /\ match r with
     | OkResult v => f v w = (Normal tt, w')
     | ErrResult e => g e w = (Normal tt, w')
     end.
Proof.
  destruct r as [v | e]; cbv [inspect inspectErr bind ret] in R.
  - destruct (f v w) as [[[] | t] w1]; [|discriminate R].
    injection R as <- <-. split; reflexivity.
  - destruct (g e w) as [[[] | t] w1]; [|discriminate R].
    injection R as <- <-. split; reflexivity.
Qed.

End ResultAlgebra.

Lemma inspect_inspectErr_return_self_witness :
  ResultTs.Fail "e" = @ResultTs.Fail float string "e"
  /\ counted (W := unit) (fun _ : string => ret tt) "e" (0, tt) = (Normal tt, (1, tt)).
Proof.
  apply (inspect_inspectErr_return_self (ResultTs.Fail "e") (ResultTs.Fail "e")
           (counted (fun _ : float => ret tt)) (counted (fun _ : string => ret tt))
           (0, tt) (1, tt)).
  reflexivity.
Defined.

Section ResultCallbacks.
Context {W : Type}.
Import ResultTs.


End ResultCallbacks.


Section Combine.
Context {engine : Engine}.
Import ResultTs.

(** The loop over a prefix of [Ok] elements only pushes their payloads. *)
Lemma combine_loop_Ok_prefix {T E} `{Repr E} (vs : list T)
    (rest : list (Result T E)) (values : list T) :
  combine_loop (List.map Ok vs ++ rest)%list values
  = combine_loop rest (values ++ vs)%list.
Proof.
  revert values. induction vs as [|v vs IH]; intro values; cbn.
  - now rewrite app_nil_r.
  - rewrite IH, <- app_assoc. reflexivity.
Qed.

Lemma combine_all_Ok_eq {T E} `{Repr E} (vs : list T) :
  combine (List.map (@Ok T E) vs) = Normal (Ok vs).
Proof. unfold combine. now rewrite combine_loop_all_Ok. Qed.

Lemma combine_first_Fail_eq {T E} `{Repr E} (vs : list T) (e : E)
    (rest : list (Result T E)) :
  combine (List.map Ok vs ++ Fail e :: rest)%list = Normal (Fail e).
Proof. unfold combine. apply combine_loop_first_Fail. Qed.

(** X22.  [combine] answers [Ok(vs)] for exactly one array: the array of
    the [Ok(v)] for [v] in [vs].  So the payloads come back in order,
    none is dropped, and [vs] has as many elements as the array. *)
Theorem combine_Ok_iff {T E} `{Repr E} (results : list (Result T E)) (vs : list T) :
  (combine results = Normal (Ok vs) <-> results = List.map Ok vs)
  /\ (combine results = Normal (Ok vs) -> length vs = length results).
Proof.
  assert (I : combine results = Normal (Ok vs) -> results = List.map Ok vs).
  { destruct (results_shape results) as [[vs' ->] | [vs' [e [rest ->]]]].
    - rewrite combine_all_Ok_eq. intro E0. injection E0 as ->. reflexivity.
    - rewrite combine_first_Fail_eq. discriminate. }
  split; [split |].
  - exact I.
  - intros ->. apply combine_all_Ok_eq.
  - intro E0. rewrite (I E0). now rewrite length_map.
Qed.

(** X23.  [combine] answers [Fail(e)] exactly when the array has a first
    [Err] element and [e] is its payload: every element before it is [Ok],
    and what follows it is arbitrary. *)
Theorem combine_Fail_iff {T E} `{Repr E} (results : list (Result T E)) (e : E) :
  combine results = Normal (Fail e)
  <-> exists vs rest, results = (List.map Ok vs ++ Fail e :: rest)%list.
Proof.
  split.
  - destruct (results_shape results) as [[vs ->] | [vs [e' [rest ->]]]].
    + rewrite combine_all_Ok_eq. discriminate.
    + rewrite combine_first_Fail_eq. intro E0. injection E0 as ->.
      exists vs, rest. reflexivity.
  - intros [vs [rest ->]]. apply combine_first_Fail_eq.
Qed.

(** X24.  [combine] of a concatenation: the first failure of the left
    array if it has one, else the first failure of the right array, else
    the payloads of the left array followed by those of the right one.  In
    particular [combine([r])] is [r] with its payload put in an array. *)
Theorem combine_app {T E} `{Repr E} (xs ys : list (Result T E)) (r : Result T E) :
  combine (xs ++ ys)%list
  = match combine xs, combine ys with
    | Normal (OkResult vx), Normal (OkResult vy) => Normal (Ok (vx ++ vy)%list)
    | Normal (OkResult _), other => other
    | other, _ => other
    end
  /\ combine [r]
     = Normal match r with
              | OkResult v => Ok [v]
              | ErrResult e => Fail e
              end.
Proof.
  split; [| destruct r; reflexivity].
  destruct (results_shape xs) as [[vx ->] | [vx [e [rest ->]]]].
  - rewrite combine_all_Ok_eq.
    destruct (results_shape ys) as [[vy ->] | [vy [e [rest ->]]]].
    + rewrite <- map_app, !combine_all_Ok_eq. reflexivity.
    + rewrite app_assoc, <- map_app, !combine_first_Fail_eq. reflexivity.
  - rewrite <- app_assoc. cbn [app]. rewrite !combine_first_Fail_eq. reflexivity.
Qed.

(** X25.  [combine] succeeds exactly when every element does: its result
    is [Ok] if [isOk()] holds of all elements and [Err] otherwise, and a
    failure it returns is an element of the array. *)
Theorem combine_isOk {T E} `{Repr E} (results : list (Result T E)) :
  match combine results with
  | Normal (OkResult _) => forallb isOk results = true
  | Normal (ErrResult e) => forallb isOk results = false /\ In (Fail e) results
  | Abrupt _ => False
  end.
Proof.
  destruct (results_shape results) as [[vs ->] | [vs [e [rest ->]]]].
  - rewrite combine_all_Ok_eq. induction vs as [|v vs IH]; [reflexivity | exact IH].
  - rewrite combine_first_Fail_eq. split.
    + induction vs as [|v vs IH]; [reflexivity | exact IH].
    + apply in_or_app. right. left. reflexivity.
Qed.

End Combine.

Section FromThrowable.
Context {W : Type} {engine : Engine}.
Import ResultTs.


(** X27.  The only faults that get through [fromThrowable]: it throws [t]
    exactly when [f] threw an object that is not an [Error] and whose
    conversion to a string throws [t].  Whatever else [f] throws (an
    [Error], a primitive, a Symbol, an object with a string form) is
    turned into a [Fail]. *)
Theorem fromThrowable_raises_iff {T} (f : unit -> Js W T) (w : W) (t : value) :
  fst (fromThrowable f w) = Abrupt t <-> fst (f tt w) = Abrupt (VObject (Raises t)).
Proof.
  cbv [fromThrowable try_catch bind ret lift Ok Fail].
  destruct (f tt w) as [[a | e] w1]; cbn.
  - split; discriminate.
  - destruct e as [| | [|] | | | | | | [s | t']]; cbn;
      split; intro E0; try discriminate E0; injection E0 as ->; reflexivity.
Qed.

(** X28.  The failure [fromThrowable] builds from a fault [e]: when it
    completes, its result is [Fail(err)] where [err] is [e] itself if [e]
    is an [Error] instance, and otherwise an [Error] named ['Error'] whose
    message is [String(e)]. *)
Theorem fromThrowable_Fail {T} (f : unit -> Js W T) (w w' : W) (e : value)
    (r : Result T Error)
    (Thrown : f tt w = (Abrupt e, w'))
    (Done : fst (fromThrowable f w) = Normal r) :
  exists err,
    r = Fail err
    /\ (forall x, e = VError x -> err = x)
    /\ (instanceof_Error e = false ->
          name err = "Error" /\ String_ e = Normal (message err)).
Proof.
  cbv [fromThrowable try_catch bind ret lift] in Done. rewrite Thrown in Done.
  destruct e as [| | [|] | n | z | s | d | x | [s | t]]; cbn in Done;
    try discriminate Done; injection Done as <-;
    eexists; (split; [reflexivity |]); split.
  all: try (intros y E0; discriminate E0).
  all: try (intros _; split; reflexivity).
  - intros y E0. now injection E0.
  - discriminate.
Qed.

End FromThrowable.

Lemma fromThrowable_Fail_witness :
  exists err,
    @ResultTs.Fail float Error (new_Error "plain") = ResultTs.Fail err
    /\ (forall x, VString "plain" = VError x -> err = x)
    /\ (instanceof_Error (VString "plain") = false ->
          name err = "Error"
          /\ String_ (engine := ExactDecimal.engine) (VString "plain") = Normal (message err)).
Proof.
  apply (fromThrowable_Fail (W := unit) (engine := ExactDecimal.engine)
           (thrower (VString "plain")) tt tt (VString "plain")
           (ResultTs.Fail (new_Error "plain")));
    reflexivity.
Defined.

Section ResultToString.
Context {engine : Engine}.
Import ResultTs.

(** X29.  [toString()] of a result throws exactly when the conversion of
    its payload to a string throws, and its result tells the variant: two
    results with the same string are both [Ok] or both [Err]. *)
Theorem toString_Result {T E} `{Repr T} `{Repr E} (r r1 r2 : Result T E) (s : string)
    (E1 : toString r1 = Normal s) (E2 : toString r2 = Normal s) :
  isOk r1 = isOk r2
  /\ is_normal (toString r)
     = match r with
       | OkResult v => is_normal (ToString (repr v))
       | ErrResult e => is_normal (ToString (repr e))
       end.
Proof.
  split.
  - destruct r1 as [v1 | e1], r2 as [v2 | e2]; cbn in *; try reflexivity;
      unfold template in *;
      repeat match goal with
             | E : context [ToString ?x] |- _ => destruct (ToString x)
             end;
      cbn in *; congruence.
  - destruct r as [v | e]; cbn; unfold template;
      match goal with |- context [ToString ?x] => destruct (ToString x) end;
      reflexivity.
Qed.

End ResultToString.

Lemma toString_Result_witness :
  ResultTs.isOk (@ResultTs.Fail value value (VString "x"))
  = ResultTs.isOk (@ResultTs.Fail value value (VString "x"))
  /\ is_normal (ResultTs.toString (engine := ExactDecimal.engine)
                  (@ResultTs.Fail value value (VSymbol None)))
     = is_normal (ToString (engine := ExactDecimal.engine) (repr (VSymbol None))).
Proof.
  apply (toString_Result (engine := ExactDecimal.engine)
           (@ResultTs.Fail value value (VSymbol None))
           (ResultTs.Fail (VString "x")) (ResultTs.Fail (VString "x")) "Err(x)");
    reflexivity.
Defined.

(* ===================================================================== *)
(** * Further properties of src/match.ts                                 *)
(* ===================================================================== *)

Section MatchFusion.
Context {W : Type}.

(** X30.  Matching after a map is one match whose handler for the mapped
    side runs the callback first: [match(o.map(f), p)] does what
    [match(o, { Some: v => p.Some(f(v)), None: p.None })] does, and
    likewise for [map] and [mapErr] of a [Result]. *)
Theorem match_after_map {T U E F R} (o : OptionTs.Option T) (r : ResultTs.Result T E)
    (f : T -> Js W U) (g : E -> Js W F)
    (po : OptionTs.Patterns W U R)
    (pr : ResultTs.Patterns W U E R) (pe : ResultTs.Patterns W T F R) (w : W) :
  (o' <- OptionTs.map o f ;; MatchTs.match_ o' po) w
  = MatchTs.match_ o
      (OptionTs.mkPatterns (fun v => u <- f v ;; OptionTs.SomeArm po u)
                           (OptionTs.NoneArm po)) w
  /\ (r' <- ResultTs.map r f ;; MatchTs.match_ r' pr) w
     = MatchTs.match_ r
         (ResultTs.mkPatterns (fun v => u <- f v ;; ResultTs.OkArm pr u)
                              (ResultTs.ErrArm pr)) w
  /\ (r' <- ResultTs.mapErr r g ;; MatchTs.match_ r' pe) w
     = MatchTs.match_ r
         (ResultTs.mkPatterns (ResultTs.OkArm pe)
                              (fun e => x <- g e ;; ResultTs.ErrArm pe x)) w.
Proof.
  destruct o as [v|], r as [x | e]; repeat split;
    cbv [OptionTs.map ResultTs.map ResultTs.mapErr MatchTs.match_ MatchTs.match_method
         MatchTs.Matchable_Option MatchTs.Matchable_Result
         OptionTs.match_ ResultTs.match_ OptionTs.SomeArm OptionTs.NoneArm
         ResultTs.OkArm ResultTs.ErrArm bind ret
         OptionTs.Some OptionTs.None ResultTs.Ok ResultTs.Fail];
    run_all; try reflexivity.
Qed.

End MatchFusion.
